(** * medical.py: the prescription analysis service

    A shallow embedding of the backend logic of [medical.py] (the module-level
    tables, [extract_drugs], [check_interactions], [recommend_dosage],
    [suggest_alternatives] and the [/analyze/] handler), of one run of the
    Streamlit script [run_streamlit], and the properties of its specification.

    Python dictionaries keyed by strings are finite maps ([gmap string _]):
    equality of dictionaries ignores insertion order, as Python's [==] does.
    Python integers are [Z].  The two module-level tables are globals that
    every function reaches through the module namespace, so the functions are
    written in a state-passing monad over the pair of tables. *)

From Stdlib Require Import ZArith Ascii String.
From stdpp Require Import base option list sorting strings pretty gmap.

(** ** Data model *)

(** A value of [DRUG_DATABASE]: a dictionary with the three keys
    ["interacts_with"], ["min_age"] and ["dosage"]. *)
Record DrugRecord := {
  interacts_with : list string;
  min_age : Z;
  dosage : string
}.

Definition DRUG_DATABASE : gmap string DrugRecord :=
  list_to_map [
    ("ibuprofen", {| interacts_with := ["aspirin"]; min_age := 12; dosage := "200mg" |});
    ("aspirin", {| interacts_with := ["ibuprofen"]; min_age := 16; dosage := "100mg" |});
    ("paracetamol", {| interacts_with := []; min_age := 1; dosage := "500mg" |})
  ].

Definition ALTERNATIVES : gmap string string :=
  list_to_map [ ("ibuprofen", "paracetamol"); ("aspirin", "paracetamol") ].

(** A grouped entity returned by the NER pipeline; the service reads the keys
    ["word"] and ["entity_group"] only. *)
Record Entity := {
  word : string;
  entity_group : string
}.

(** The request body of [/analyze/]. *)
Record PrescriptionInput := {
  text : string;
  age : Z
}.

(** ** The module globals and the monad of the service *)

Record Globals := {
  g_DRUG_DATABASE : gmap string DrugRecord;
  g_ALTERNATIVES : gmap string string
}.

(** The globals as the module leaves them once it is imported. *)
Definition startup : Globals :=
  {| g_DRUG_DATABASE := DRUG_DATABASE; g_ALTERNATIVES := ALTERNATIVES |}.

Definition Prog (A : Type) : Type := Globals → A * Globals.

#[global] Instance Prog_ret : MRet Prog := λ A (a : A) (g : Globals), (a, g).

#[global] Instance Prog_bind : MBind Prog :=
  λ A B (f : A → Prog B) (m : Prog A) (g : Globals),
    let (a, g') := m g in f a g'.

(** Evaluating the global name [DRUG_DATABASE], resp. [ALTERNATIVES]. *)
Definition read_DRUG_DATABASE : Prog (gmap string DrugRecord) :=
  λ g, (g_DRUG_DATABASE g, g).

Definition read_ALTERNATIVES : Prog (gmap string string) :=
  λ g, (g_ALTERNATIVES g, g).

(** An item assignment [DRUG_DATABASE[key] = value].  No function of the
    service performs one; it is here to show what a mutation is in [Prog]. *)
Definition store_DRUG_DATABASE (key : string) (value : DrugRecord) : Prog unit :=
  λ g, (tt, {| g_DRUG_DATABASE := <[key := value]> (g_DRUG_DATABASE g);
              g_ALTERNATIVES := g_ALTERNATIVES g |}).

Definition result_of {A} (m : Prog A) (g : Globals) : A := (m g).1.
Definition globals_after {A} (m : Prog A) (g : Globals) : Globals := (m g).2.

(** ** What the service takes from outside

    [nlp] is the HuggingFace pipeline, a function of the text that does not
    touch the module tables, [lower] is [str.lower], and
    [list_of_set l] is [list(set(l))]: the elements of [l] without duplicates,
    in the order in which the interpreter enumerates the set, which the
    language leaves open. *)
Class Runtime := {
  nlp : string → list Entity;
  lower : string → string;
  list_of_set : list string → list string;
  list_of_set_NoDup : ∀ l, NoDup (list_of_set l);
  list_of_set_elem : ∀ l x, x ∈ list_of_set l ↔ x ∈ l
}.

(** ** The functions of the service *)

(** [enumerate(l)] *)
Definition enumerate {A} (l : list A) : list (nat * A) := imap pair l.

(** [f"{drug} interacts with {other}"] *)
Definition interaction_statement (drug other : string) : string :=
  drug +:+ " interacts with " +:+ other.

(** [f"Not recommended under age {min_age}"] *)
Definition restriction_message (min_age : Z) : string :=
  "Not recommended under age " +:+ pretty min_age.

(** The inner loop [for other in drugs[i+1:]]. *)
Fixpoint check_interactions_inner (drug : string) (others : list string)
    (interactions : list string) : Prog (list string) :=
  match others with
  | [] => mret interactions
  | other :: others =>
      db ← read_DRUG_DATABASE;
      if bool_decide (other ∈ from_option interacts_with [] (db !! drug))
      then check_interactions_inner drug others
             (interactions ++ [interaction_statement drug other])
      else check_interactions_inner drug others interactions
  end.

(** The outer loop [for i, drug in enumerate(drugs)], over what is left of
    the enumeration. *)
Fixpoint check_interactions_outer (drugs : list string)
    (todo : list (nat * string)) (interactions : list string)
    : Prog (list string) :=
  match todo with
  | [] => mret interactions
  | (i, drug) :: todo =>
      interactions ← check_interactions_inner drug (drop (i + 1) drugs) interactions;
      check_interactions_outer drugs todo interactions
  end.

Definition check_interactions (drugs : list string) : Prog (list string) :=
  check_interactions_outer drugs (enumerate drugs) [].

(** The loop [for drug in drugs] of [recommend_dosage]; [result] is the
    dictionary [dosage] built so far.  [DRUG_DATABASE.get(drug)] is [None]
    for a drug without record, and a record, having its three keys, is
    truthy: [if info] is the test that the drug has a record. *)
Fixpoint recommend_dosage_loop (drugs : list string) (age : Z)
    (result : gmap string string) : Prog (gmap string string) :=
  match drugs with
  | [] => mret result
  | drug :: drugs =>
      db ← read_DRUG_DATABASE;
      match db !! drug with
      | Some info =>
          if (age >=? min_age info)%Z
          then recommend_dosage_loop drugs age (<[drug := dosage info]> result)
          else recommend_dosage_loop drugs age
                 (<[drug := restriction_message (min_age info)]> result)
      | None => recommend_dosage_loop drugs age result
      end
  end.

Definition recommend_dosage (drugs : list string) (age : Z)
    : Prog (gmap string string) :=
  recommend_dosage_loop drugs age ∅.

(** The dictionary comprehension of [suggest_alternatives]; [result] is the
    dictionary built so far.  The condition [drug in ALTERNATIVES] is
    evaluated first, then the value [ALTERNATIVES.get(drug, default)]. *)
Fixpoint suggest_alternatives_loop (drugs : list string)
    (result : gmap string string) : Prog (gmap string string) :=
  match drugs with
  | [] => mret result
  | drug :: drugs =>
      alts ← read_ALTERNATIVES;
      if bool_decide (is_Some (alts !! drug))
      then
        alts ← read_ALTERNATIVES;
        suggest_alternatives_loop drugs
          (<[drug := default "No alternative found" (alts !! drug)]> result)
      else suggest_alternatives_loop drugs result
  end.

Definition suggest_alternatives (drugs : list string)
    : Prog (gmap string string) :=
  suggest_alternatives_loop drugs ∅.

(** The response body of [/analyze/]. *)
Record AnalysisResult := {
  extracted_drugs : list string;
  interactions : list string;
  dosage_info : gmap string string;
  alternatives : gmap string string
}.

Section service.
Context `{Runtime}.

Definition extract_drugs (text : string) : Prog (list string) :=
  let entities := nlp text in
  let drugs :=
    (λ ent, lower (word ent)) <$>
      filter (λ ent, entity_group ent = "MISC") entities in
  mret (list_of_set drugs).

Definition analyze_prescription (data : PrescriptionInput) : Prog AnalysisResult :=
  extracted_drugs ← extract_drugs (text data);
  interactions ← check_interactions extracted_drugs;
  dosage_info ← recommend_dosage extracted_drugs (age data);
  alternatives ← suggest_alternatives extracted_drugs;
  mret {| extracted_drugs := extracted_drugs;
          interactions := interactions;
          dosage_info := dosage_info;
          alternatives := alternatives |}.
End service.

(** ** The Streamlit front end

    One run of the script [run_streamlit]: the calls it makes to the
    Streamlit API and to [requests], in order.  The values that the widgets
    return in the run (the text typed, the position of the slider, whether
    the button was clicked) are the [Session]; the HTTP collaborator [post]
    answers a request with a status code and a JSON body of the shape that
    the handler returns. *)

Inductive Call :=
  | st_title (body : string)
  | st_markdown (body : string)
  | st_text_area (label : string) (height : Z)
  | st_slider (label : string) (min_value max_value value : Z)
  | st_button (label : string)
  | st_spinner (label : string)
  | requests_post (url : string) (body : PrescriptionInput)
  | st_subheader (body : string)
  | st_write_list (l : list string)
  | st_write_str (s : string)
  | st_write_dict (d : gmap string string)
  | st_error (body : string).

Record Response := {
  status_code : Z;
  json : AnalysisResult
}.

Record Session := {
  typed_text : string;
  slider_age : Z;
  button_clicked : bool
}.

Definition analyze_url : string := "http://localhost:8000/analyze/".

(** [st.write(interactions or "No harmful interactions found.")]: an empty
    list is falsy. *)
Definition write_interactions (interactions : list string) : Call :=
  match interactions with
  | [] => st_write_str "No harmful interactions found."
  | _ :: _ => st_write_list interactions
  end.

Section frontend.
Variable post : string → PrescriptionInput → Response.

Definition run_streamlit (session : Session) : list Call :=
  let form :=
    [ st_title "💊 AI Prescription Verifier";
      st_markdown "*Enter medical prescription text:*";
      st_text_area "Prescription Text" 150;
      st_slider "Select Patient Age" 0 100 25;
      st_button "Analyze Prescription" ] in
  let user_input := typed_text session in
  let age := slider_age session in
  if button_clicked session then
    let body := {| text := user_input; age := age |} in
    let response := post analyze_url body in
    form ++ [ st_spinner "Analyzing..."; requests_post analyze_url body ] ++
    if (status_code response =? 200)%Z then
      let data := json response in
      [ st_subheader "📄 Extracted Drug Names";
        st_write_list (extracted_drugs data);
        st_subheader "⚠ Drug Interactions";
        write_interactions (interactions data);
        st_subheader "📋 Dosage Recommendations";
        st_write_dict (dosage_info data);
        st_subheader "✅ Alternative Suggestions";
        st_write_dict (alternatives data) ]
    else [ st_error "Backend Error" ]
  else form.
End frontend.

(** ** Notions of the specification *)

(** The drug [other] is in the ["interacts_with"] list of the record of
    [drug] in the table [db]; a drug with no record lists nothing. *)
Definition listed (db : gmap string DrugRecord) (drug other : string) : Prop :=
  other ∈ from_option interacts_with [] (db !! drug).

#[global] Instance listed_dec db drug other : Decision (listed db drug other) :=
  decide (other ∈ from_option interacts_with [] (db !! drug)).

(** The entry that [recommend_dosage] writes for a drug with record [info]. *)
Definition dosage_entry (age : Z) (info : DrugRecord) : string :=
  if (age >=? min_age info)%Z then dosage info
  else restriction_message (min_age info).

(** The statements of all pairs of positions [i < j] of a list, the earlier
    drug first, by the value at the earlier position. *)
Fixpoint statements_of (db : gmap string DrugRecord) (drugs : list string)
    : list string :=
  match drugs with
  | [] => []
  | drug :: others =>
      (interaction_statement drug <$> filter (listed db drug) others)
        ++ statements_of db others
  end.

(** The pairs of positions [i < j < n], by [i], then by [j]: the order in
    which the two loops of [check_interactions] visit them. *)
Definition index_pairs (n : nat) : list (nat * nat) :=
  i ← seq 0 n; pair i <$> seq (S i) (n - S i).

(** [p] is enumerated before [q]. *)
Definition pair_before (p q : nat * nat) : Prop :=
  p.1 < q.1 ∨ (p.1 = q.1 ∧ p.2 < q.2).

(** What the pair of positions [ij] of [drugs] contributes to the result. *)
Definition flagged_statement (db : gmap string DrugRecord) (drugs : list string)
    (ij : nat * nat) : option string :=
  match drugs !! ij.1, drugs !! ij.2 with
  | Some drug, Some other =>
      if decide (listed db drug other)
      then Some (drug +:+ " interacts with " +:+ other) else None
  | _, _ => None
  end.

(** ** A runtime to run the service on

    [str.lower] on ASCII text, [list(set(l))] in order of first occurrence,
    and a pipeline that answers every text with a fixed list of entities. *)

Definition lower_ascii (c : ascii) : ascii :=
  let n := nat_of_ascii c in
  if (65 <=? n) && (n <=? 90) then ascii_of_nat (n + 32) else c.

Fixpoint lower_string (s : string) : string :=
  match s with
  | EmptyString => EmptyString
  | String c s => String (lower_ascii c) (lower_string s)
  end.

Definition MISC (w : string) : Entity := {| word := w; entity_group := "MISC" |}.

Definition stub_runtime (entities : list Entity) : Runtime :=
  {| nlp := λ _, entities;
     lower := lower_string;
     list_of_set := remove_dups;
     list_of_set_NoDup := NoDup_remove_dups;
     list_of_set_elem := λ l x, elem_of_remove_dups l x |}.

(** The same, with [list(set(l))] in order of last occurrence, backwards. *)
Definition stub_runtime_rev (entities : list Entity) : Runtime :=
  {| nlp := λ _, entities;
     lower := lower_string;
     list_of_set := λ l, reverse (remove_dups l);
     list_of_set_NoDup := λ l,
       proj2 (NoDup_Permutation_proper _ _ (reverse_Permutation (remove_dups l)))
             (NoDup_remove_dups l);
     list_of_set_elem := λ l x,
       iff_trans (elem_of_reverse x (remove_dups l)) (elem_of_remove_dups l x) |}.

(** * Verification *)

(** ** How the loops run

    Each function returns the globals it was given, together with a value
    that is described here without the monad. *)

Ltac run_step :=
  unfold mbind, mret, Prog_bind, Prog_ret, read_DRUG_DATABASE, read_ALTERNATIVES;
  simpl.

Lemma check_interactions_inner_run drug others acc g :
  check_interactions_inner drug others acc g =
    (acc ++ (interaction_statement drug <$>
               filter (listed (g_DRUG_DATABASE g) drug) others), g).
Proof.
  revert acc. induction others as [|other others IH]; intros acc.
  - run_step. by rewrite app_nil_r.
  - simpl. run_step. rewrite filter_cons. fold (listed (g_DRUG_DATABASE g) drug other).
    case_bool_decide as Hl.
    + rewrite decide_True by done. rewrite IH, fmap_cons, <- app_assoc. done.
    + rewrite decide_False by done. apply IH.
Qed.

Lemma check_interactions_outer_run drugs done_ rest acc g :
  drugs = done_ ++ rest →
  check_interactions_outer drugs (imap (λ k, pair (length done_ + k)) rest) acc g =
    (acc ++ statements_of (g_DRUG_DATABASE g) rest, g).
Proof.
  revert done_ acc. induction rest as [|drug rest IH]; intros done_ acc Hd.
  - run_step. by rewrite app_nil_r.
  - rewrite imap_cons. simpl. run_step.
    rewrite check_interactions_inner_run.
    assert (drop (length done_ + 0 + 1) drugs = rest) as ->.
    { subst drugs. replace (length done_ + 0 + 1) with (length (done_ ++ [drug]))
        by (rewrite length_app; simpl; lia).
      rewrite (cons_middle drug done_ rest), (app_assoc done_ [drug] rest).
      apply drop_app_length. }
    specialize (IH (done_ ++ [drug]) (acc ++ (interaction_statement drug <$>
               filter (listed (g_DRUG_DATABASE g) drug) rest))).
    rewrite <- app_assoc in IH. specialize (IH Hd).
    erewrite imap_ext; [rewrite IH|].
    + by rewrite <- app_assoc.
    + intros k x _. simpl. rewrite length_app. simpl. f_equal. lia.
Qed.

Lemma check_interactions_run drugs g :
  check_interactions drugs g = (statements_of (g_DRUG_DATABASE g) drugs, g).
Proof.
  unfold check_interactions, enumerate.
  apply (check_interactions_outer_run drugs [] drugs []). done.
Qed.

Lemma recommend_dosage_loop_globals drugs age acc g :
  (recommend_dosage_loop drugs age acc g).2 = g.
Proof.
  revert acc. induction drugs as [|drug drugs IH]; intros acc; [done|].
  simpl. run_step. destruct (g_DRUG_DATABASE g !! drug) as [info|]; [|apply IH].
  destruct (age >=? min_age info)%Z; apply IH.
Qed.

Lemma recommend_dosage_loop_lookup drugs age acc g d :
  (recommend_dosage_loop drugs age acc g).1 !! d =
    if decide (d ∈ drugs)
    then from_option (Some ∘ dosage_entry age) (acc !! d) (g_DRUG_DATABASE g !! d)
    else acc !! d.
Proof.
  revert acc. induction drugs as [|drug drugs IH]; intros acc.
  { by run_step. }
  simpl. run_step.
  assert (∀ acc', (acc' !! d = if decide (d = drug)
            then from_option (Some ∘ dosage_entry age) (acc !! d) (g_DRUG_DATABASE g !! d)
            else acc !! d) →
          (recommend_dosage_loop drugs age acc' g).1 !! d =
          if decide (d ∈ drug :: drugs)
          then from_option (Some ∘ dosage_entry age) (acc !! d) (g_DRUG_DATABASE g !! d)
          else acc !! d) as Hstep.
  { intros acc' Hacc'. rewrite IH, Hacc'.
    destruct (decide (d ∈ drugs)) as [Hin|Hin], (decide (d = drug)) as [->|Hne].
    - rewrite decide_True by left.
      by destruct (g_DRUG_DATABASE g !! drug).
    - by rewrite decide_True by (by right).
    - by rewrite decide_True by left.
    - rewrite decide_False; [done|]. by intros [?|?]%elem_of_cons. }
  destruct (g_DRUG_DATABASE g !! drug) as [info|] eqn:Hdb.
  - assert (∀ v, v = dosage_entry age info →
            (recommend_dosage_loop drugs age (<[drug:=v]> acc) g).1 !! d =
            if decide (d ∈ drug :: drugs)
            then from_option (Some ∘ dosage_entry age) (acc !! d) (g_DRUG_DATABASE g !! d)
            else acc !! d) as Hentry.
    { intros v ->. apply Hstep. destruct (decide (d = drug)) as [->|Hne].
      + by rewrite lookup_insert_eq, Hdb.
      + by rewrite lookup_insert_ne. }
    destruct (age >=? min_age info)%Z eqn:Hage;
      apply Hentry; unfold dosage_entry; by rewrite Hage.
  - apply Hstep. destruct (decide (d = drug)) as [->|Hne]; [by rewrite Hdb|done].
Qed.

Lemma suggest_alternatives_loop_globals drugs acc g :
  (suggest_alternatives_loop drugs acc g).2 = g.
Proof.
  revert acc. induction drugs as [|drug drugs IH]; intros acc; [done|].
  simpl. run_step. case_bool_decide; apply IH.
Qed.

Lemma suggest_alternatives_loop_lookup drugs acc g d :
  (suggest_alternatives_loop drugs acc g).1 !! d =
    if decide (d ∈ drugs)
    then from_option Some (acc !! d) (g_ALTERNATIVES g !! d)
    else acc !! d.
Proof.
  revert acc. induction drugs as [|drug drugs IH]; intros acc.
  { by run_step. }
  simpl. run_step. case_bool_decide as Hsome; rewrite IH.
  - destruct Hsome as [alt Halt]. rewrite Halt. simpl.
    destruct (decide (d ∈ drugs)) as [Hin|Hin], (decide (d = drug)) as [->|Hne].
    + rewrite decide_True by left. by rewrite Halt.
    + rewrite decide_True by (by right). by rewrite lookup_insert_ne.
    + rewrite decide_True by left. by rewrite lookup_insert_eq, Halt.
    + rewrite decide_False by (by intros [?|?]%elem_of_cons).
      by rewrite lookup_insert_ne.
  - destruct (decide (d ∈ drugs)) as [Hin|Hin], (decide (d = drug)) as [->|Hne].
    + by rewrite decide_True by left.
    + by rewrite decide_True by (by right).
    + rewrite decide_True by left.
      destruct (g_ALTERNATIVES g !! drug) eqn:E; [|done].
      destruct Hsome. by eexists.
    + by rewrite decide_False by (by intros [?|?]%elem_of_cons).
Qed.

(** ** Globals are only read *)

Lemma extract_drugs_globals `{Runtime} text g :
  globals_after (extract_drugs text) g = g.
Proof. done. Qed.

Lemma check_interactions_globals drugs g :
  globals_after (check_interactions drugs) g = g.
Proof. unfold globals_after. by rewrite check_interactions_run. Qed.

Lemma recommend_dosage_globals drugs age g :
  globals_after (recommend_dosage drugs age) g = g.
Proof. apply recommend_dosage_loop_globals. Qed.

Lemma suggest_alternatives_globals drugs g :
  globals_after (suggest_alternatives drugs) g = g.
Proof. apply suggest_alternatives_loop_globals. Qed.

Lemma analyze_prescription_run `{Runtime} data g :
  analyze_prescription data g =
    (let drugs := result_of (extract_drugs (text data)) g in
     {| extracted_drugs := drugs;
        interactions := result_of (check_interactions drugs) g;
        dosage_info := result_of (recommend_dosage drugs (age data)) g;
        alternatives := result_of (suggest_alternatives drugs) g |}, g).
Proof.
  unfold analyze_prescription, result_of. unfold mbind, Prog_bind.
  set (drugs := (extract_drugs (text data) g).1).
  assert (extract_drugs (text data) g = (drugs, g)) as -> by done.
  pose proof (check_interactions_globals drugs g) as H1.
  pose proof (recommend_dosage_globals drugs (age data) g) as H2.
  pose proof (suggest_alternatives_globals drugs g) as H3.
  unfold globals_after in *.
  destruct (check_interactions drugs g) as [r1 g1]. simpl in H1. subst g1.
  destruct (recommend_dosage drugs (age data) g) as [r2 g2]. simpl in H2. subst g2.
  destruct (suggest_alternatives drugs g) as [r3 g3]. simpl in H3. by subst g3.
Qed.

(** A program of [Prog] can change the tables: the assignment does. *)
Example store_DRUG_DATABASE_mutates :
  globals_after
    (store_DRUG_DATABASE "zinc" {| interacts_with := []; min_age := 0; dosage := "10mg" |})
    startup ≠ startup.
Proof.
  intros Heq. apply (f_equal (λ g, g_DRUG_DATABASE g !! "zinc")) in Heq.
  vm_compute in Heq. discriminate.
Qed.

(** C9: no operation of the service changes the module tables.  Run from any
    globals [g], each of [extract_drugs], [check_interactions],
    [recommend_dosage], [suggest_alternatives] and the [/analyze/] handler
    leaves [g] as it was; run from the startup globals, [DRUG_DATABASE] and
    [ALTERNATIVES] still hold their startup values afterwards. *)
Theorem tables_never_mutated `{Runtime} (g : Globals) :
  (∀ text, globals_after (extract_drugs text) g = g) ∧
  (∀ drugs, globals_after (check_interactions drugs) g = g) ∧
  (∀ drugs age, globals_after (recommend_dosage drugs age) g = g) ∧
  (∀ drugs, globals_after (suggest_alternatives drugs) g = g) ∧
  (∀ data, globals_after (analyze_prescription data) g = g) ∧
  (∀ data,
     g_DRUG_DATABASE (globals_after (analyze_prescription data) startup) = DRUG_DATABASE ∧
     g_ALTERNATIVES (globals_after (analyze_prescription data) startup) = ALTERNATIVES).
Proof.
  split_and!.
  - intros. apply extract_drugs_globals.
  - intros. apply check_interactions_globals.
  - intros. apply recommend_dosage_globals.
  - intros. apply suggest_alternatives_globals.
  - intros data. unfold globals_after. by rewrite analyze_prescription_run.
  - intros data. unfold globals_after. by rewrite analyze_prescription_run.
Qed.

(** ** [recommend_dosage] *)

Lemma recommend_dosage_lookup drugs age g d :
  result_of (recommend_dosage drugs age) g !! d =
    if decide (d ∈ drugs) then dosage_entry age <$> g_DRUG_DATABASE g !! d else None.
Proof.
  unfold result_of, recommend_dosage. rewrite recommend_dosage_loop_lookup.
  rewrite lookup_empty. case_decide; [|done].
  by destruct (g_DRUG_DATABASE g !! d).
Qed.

(** C1: for every list of drugs and every age, the keys of the mapping that
    [recommend_dosage] returns are exactly the input drugs that are keys of
    [DRUG_DATABASE]; such a drug is mapped to the dosage string of its record
    when [age >= min_age], and to ["Not recommended under age <min_age>"]
    when [age < min_age]; a drug that is not a key of the table has no
    entry. *)
Theorem recommend_dosage_spec (drugs : list string) (age : Z) (drug : string) :
  let r := result_of (recommend_dosage drugs age) startup in
  (drug ∈ dom r ↔ drug ∈ drugs ∧ drug ∈ dom DRUG_DATABASE) ∧
  (∀ info, drug ∈ drugs → DRUG_DATABASE !! drug = Some info →
     (age >= min_age info)%Z → r !! drug = Some (dosage info)) ∧
  (∀ info, drug ∈ drugs → DRUG_DATABASE !! drug = Some info →
     (age < min_age info)%Z →
     r !! drug = Some ("Not recommended under age " +:+ pretty (min_age info))) ∧
  (DRUG_DATABASE !! drug = None → r !! drug = None).
Proof.
  intros r. subst r. rewrite elem_of_dom, !recommend_dosage_lookup.
  split_and!.
  - split.
    + case_decide as Hin; [|by intros [? ?]].
      intros [e (info & Hinfo & _)%fmap_Some]. split; [done|].
      apply elem_of_dom. by eexists.
    + intros [Hin [info Hinfo]%elem_of_dom]. rewrite decide_True by done.
      change (g_DRUG_DATABASE startup) with DRUG_DATABASE. rewrite Hinfo. by eexists.
  - intros info Hin Hinfo Hage. rewrite decide_True by done.
    change (g_DRUG_DATABASE startup) with DRUG_DATABASE. rewrite Hinfo. simpl.
    unfold dosage_entry. by rewrite (proj2 (Z.geb_le _ _)) by lia.
  - intros info Hin Hinfo Hage. rewrite decide_True by done.
    change (g_DRUG_DATABASE startup) with DRUG_DATABASE. rewrite Hinfo. simpl.
    unfold dosage_entry.
    destruct (age >=? min_age info)%Z eqn:E; [apply Z.geb_le in E; lia|done].
  - intros Hnone. change (g_DRUG_DATABASE startup) with DRUG_DATABASE.
    rewrite Hnone. by case_decide.
Qed.

Lemma recommend_dosage_spec_witness :
  result_of (recommend_dosage ["ibuprofen"; "zinc"] 11) startup !! "ibuprofen"
    = Some "Not recommended under age 12" ∧
  result_of (recommend_dosage ["ibuprofen"; "zinc"] 12) startup !! "ibuprofen"
    = Some "200mg" ∧
  result_of (recommend_dosage ["ibuprofen"; "zinc"] 11) startup !! "zinc" = None.
Proof.
  pose (info := {| interacts_with := ["aspirin"]; min_age := 12; dosage := "200mg" |}).
  split; [|split].
  - destruct (recommend_dosage_spec ["ibuprofen"; "zinc"] 11 "ibuprofen")
      as (_ & _ & Hlow & _).
    apply (Hlow info); [by left | reflexivity | simpl; lia].
  - destruct (recommend_dosage_spec ["ibuprofen"; "zinc"] 12 "ibuprofen")
      as (_ & Hok & _ & _).
    apply (Hok info); [by left | reflexivity | simpl; lia].
  - destruct (recommend_dosage_spec ["ibuprofen"; "zinc"] 11 "zinc")
      as (_ & _ & _ & Hnone).
    apply Hnone. reflexivity.
Defined.

(** C4: [recommend_dosage] on ["paracetamol"] at age 0, and on ["ibuprofen"]
    at ages 12 and 11. *)
Theorem recommend_dosage_examples :
  result_of (recommend_dosage ["paracetamol"] 0) startup
    = {[ "paracetamol" := "Not recommended under age 1" ]} ∧
  result_of (recommend_dosage ["ibuprofen"] 12) startup
    = {[ "ibuprofen" := "200mg" ]} ∧
  result_of (recommend_dosage ["ibuprofen"] 11) startup
    = {[ "ibuprofen" := "Not recommended under age 12" ]}.
Proof. repeat split; vm_compute; reflexivity. Qed.

(** ** [suggest_alternatives] *)

Lemma suggest_alternatives_lookup drugs g d :
  result_of (suggest_alternatives drugs) g !! d =
    if decide (d ∈ drugs) then g_ALTERNATIVES g !! d else None.
Proof.
  unfold result_of, suggest_alternatives.
  rewrite suggest_alternatives_loop_lookup, lookup_empty.
  case_decide; [|done]. by destruct (g_ALTERNATIVES g !! d).
Qed.

(** C5: for every list of drugs, the mapping that [suggest_alternatives]
    returns has one entry for each input drug that is a key of
    [ALTERNATIVES], its listed alternative, and no entry for any other drug,
    whether it is an input without alternative or no input at all; on
    ibuprofen and paracetamol, in either order, it is
    [{"ibuprofen": "paracetamol"}]. *)
Theorem suggest_alternatives_spec (drugs : list string) (drug : string) :
  let r := result_of (suggest_alternatives drugs) startup in
  (∀ alt, drug ∈ drugs → ALTERNATIVES !! drug = Some alt → r !! drug = Some alt) ∧
  (ALTERNATIVES !! drug = None → r !! drug = None) ∧
  (drug ∉ drugs → r !! drug = None) ∧
  result_of (suggest_alternatives ["ibuprofen"; "paracetamol"]) startup
    = {[ "ibuprofen" := "paracetamol" ]} ∧
  result_of (suggest_alternatives ["paracetamol"; "ibuprofen"]) startup
    = {[ "ibuprofen" := "paracetamol" ]}.
Proof.
  intros r. subst r. rewrite suggest_alternatives_lookup.
  change (g_ALTERNATIVES startup) with ALTERNATIVES. split_and!.
  - intros alt Hin Halt. by rewrite decide_True.
  - intros ->. by case_decide.
  - intros Hnin. by rewrite decide_False.
  - vm_compute. reflexivity.
  - vm_compute. reflexivity.
Qed.

Lemma suggest_alternatives_spec_witness :
  result_of (suggest_alternatives ["aspirin"; "paracetamol"]) startup !! "aspirin"
    = Some "paracetamol" ∧
  result_of (suggest_alternatives ["aspirin"; "paracetamol"]) startup !! "paracetamol"
    = None ∧
  result_of (suggest_alternatives ["aspirin"; "paracetamol"]) startup !! "ibuprofen"
    = None.
Proof.
  split; [|split].
  - destruct (suggest_alternatives_spec ["aspirin"; "paracetamol"] "aspirin")
      as (Hin & _).
    apply Hin; [by left | reflexivity].
  - destruct (suggest_alternatives_spec ["aspirin"; "paracetamol"] "paracetamol")
      as (_ & Hnone & _).
    apply Hnone. reflexivity.
  - destruct (suggest_alternatives_spec ["aspirin"; "paracetamol"] "ibuprofen")
      as (_ & _ & Hnin & _).
    apply Hnin. intros Hin. apply elem_of_cons in Hin as [Heq|Hin]; [discriminate|].
    apply elem_of_cons in Hin as [Heq|Hin]; [discriminate|].
    by apply not_elem_of_nil in Hin.
Defined.

Lemma ALTERNATIVES_values drug v :
  ALTERNATIVES !! drug = Some v → v = "paracetamol".
Proof.
  unfold ALTERNATIVES. simpl. intros Hv.
  apply lookup_insert_Some in Hv as [[_ <-]|[_ Hv]]; [done|].
  apply lookup_insert_Some in Hv as [[_ <-]|[_ Hv]]; [done|].
  by rewrite lookup_empty in Hv.
Qed.

(** C10: the default ["No alternative found"] of the lookup in
    [suggest_alternatives] is never used.  Whatever the table holds, a value
    of the returned mapping is the value of the table at the same key; with
    the table [ALTERNATIVES], the string ["No alternative found"] is the
    value of no key of the returned mapping. *)
Theorem suggest_alternatives_default_unused (drugs : list string) (drug : string) :
  (∀ g v, result_of (suggest_alternatives drugs) g !! drug = Some v →
          g_ALTERNATIVES g !! drug = Some v) ∧
  (∀ v, result_of (suggest_alternatives drugs) startup !! drug = Some v →
        ALTERNATIVES !! drug = Some v ∧ v ≠ "No alternative found").
Proof.
  assert (∀ g v, result_of (suggest_alternatives drugs) g !! drug = Some v →
                 g_ALTERNATIVES g !! drug = Some v) as Hfrom.
  { intros g v. rewrite suggest_alternatives_lookup. by case_decide. }
  split; [done|]. intros v Hv%Hfrom. split; [done|].
  by apply ALTERNATIVES_values in Hv as ->.
Qed.

Lemma suggest_alternatives_default_unused_witness :
  ALTERNATIVES !! "ibuprofen" = Some "paracetamol" ∧
  "paracetamol" ≠ "No alternative found".
Proof.
  destruct (suggest_alternatives_default_unused ["zinc"; "ibuprofen"] "ibuprofen")
    as [_ Hstartup].
  apply Hstartup. vm_compute. reflexivity.
Defined.

(** ** [extract_drugs] *)

Lemma extract_drugs_elem `{Runtime} text g w :
  w ∈ result_of (extract_drugs text) g ↔
  ∃ ent, ent ∈ nlp text ∧ entity_group ent = "MISC" ∧ w = lower (word ent).
Proof.
  unfold result_of, extract_drugs. simpl.
  rewrite list_of_set_elem, list_elem_of_fmap. split.
  - intros (ent & -> & [Hg Hin]%list_elem_of_filter). by exists ent.
  - intros (ent & Hin & Hg & ->). exists ent. split; [done|].
    by apply list_elem_of_filter.
Qed.

(** C7: whatever spans the entity extractor returns, [extract_drugs] returns
    the lowercased words of the spans whose entity group is ["MISC"], each
    exactly once however many spans produce it; spans of another group
    contribute nothing; with no qualifying span the result is empty. *)
Theorem extract_drugs_spec `{Runtime} (text : string) (g : Globals) :
  let r := result_of (extract_drugs text) g in
  NoDup r ∧
  (∀ w, w ∈ r ↔ ∃ ent, ent ∈ nlp text ∧ entity_group ent = "MISC" ∧ w = lower (word ent)) ∧
  ((∀ ent, ent ∈ nlp text → entity_group ent ≠ "MISC") → r = []).
Proof.
  intros r. split_and!.
  - apply list_of_set_NoDup.
  - intros w. apply extract_drugs_elem.
  - intros Hnone. destruct r as [|w r'] eqn:Hr; [done|].
    destruct (proj1 (extract_drugs_elem text g w)) as (ent & Hin & Hg & _).
    { fold r. rewrite Hr. by left. }
    by destruct (Hnone ent Hin).
Qed.

Lemma extract_drugs_spec_witness :
  result_of (@extract_drugs
               (stub_runtime [ {| word := "Alice"; entity_group := "PER" |};
                               {| word := "Oslo"; entity_group := "LOC" |} ])
               "Alice lives in Oslo") startup = [].
Proof.
  apply (@extract_drugs_spec (stub_runtime _) "Alice lives in Oslo" startup).
  intros ent Hin. simpl in Hin.
  apply elem_of_cons in Hin as [->|Hin]; [discriminate|].
  apply elem_of_cons in Hin as [->|Hin]; [discriminate|].
  by apply not_elem_of_nil in Hin.
Defined.

(** Three spans of one word, one span of another group: one extracted drug. *)
Example extract_drugs_dedup :
  result_of (@extract_drugs
               (stub_runtime [ MISC "Paracetamol"; MISC "paracetamol";
                               {| word := "paracetamol"; entity_group := "ORG" |};
                               MISC "PARACETAMOL" ])
               "Paracetamol, paracetamol, PARACETAMOL") startup = ["paracetamol"].
Proof. vm_compute. reflexivity. Qed.

(** ** [check_interactions] *)

Lemma elem_of_index_pairs n i j : (i, j) ∈ index_pairs n ↔ i < j < n.
Proof.
  unfold index_pairs. rewrite list_elem_of_bind. split.
  - intros (i' & Hj & Hi). apply list_elem_of_fmap in Hj as (j' & [= -> ->] & Hj).
    apply elem_of_seq in Hj, Hi. lia.
  - intros Hij. exists i. rewrite list_elem_of_fmap, elem_of_seq. split; [|lia].
    exists j. rewrite elem_of_seq. split; [done|lia].
Qed.

Lemma omap_fmap_compose {A B C} (f : B → option C) (h : A → B) (l : list A) :
  omap f (h <$> l) = omap (f ∘ h) l.
Proof. induction l as [|x l IH]; [done|]. csimpl. by rewrite IH. Qed.

Lemma bind_fmap_compose {A B C} (f : B → list C) (h : A → B) (l : list A) :
  (h <$> l) ≫= f = l ≫= (f ∘ h).
Proof. induction l as [|x l IH]; [done|]. csimpl. by rewrite IH. Qed.

Lemma fmap_bind_compose {A B C} (f : A → list B) (h : B → C) (l : list A) :
  h <$> (l ≫= f) = l ≫= (fmap h ∘ f).
Proof. induction l as [|x l IH]; [done|]. csimpl. by rewrite fmap_app, IH. Qed.

Lemma index_pairs_S n :
  index_pairs (S n) = (pair 0 <$> seq 1 n) ++ (prod_map S S <$> index_pairs n).
Proof.
  unfold index_pairs. rewrite <- cons_seq, bind_cons. f_equal.
  - simpl. by rewrite Nat.sub_0_r.
  - rewrite <- fmap_S_seq, bind_fmap_compose, fmap_bind_compose.
    apply list_bind_ext; [|done]. intros i. simpl.
    rewrite <- fmap_S_seq, <- !list_fmap_compose. done.
Qed.

Lemma seq_sorted a n : StronglySorted lt (seq a n).
Proof.
  revert a. induction n as [|n IH]; intros a; simpl; constructor; [apply IH|].
  apply Forall_forall. intros x Hx%elem_of_seq. lia.
Qed.

Lemma index_pairs_sorted n : StronglySorted pair_before (index_pairs n).
Proof.
  induction n as [|n IH]; [constructor|].
  rewrite index_pairs_S. apply StronglySorted_app_2.
  - intros [i j] [i' j'] (k & [= -> ->] & _)%list_elem_of_fmap
      ([a b] & [= -> ->] & _)%list_elem_of_fmap.
    left. simpl. lia.
  - apply (StronglySorted_fmap _ lt); [intros x y Hxy; right; simpl; lia|].
    apply seq_sorted.
  - apply (StronglySorted_fmap _ pair_before); [|done].
    intros [a b] [a' b']. unfold pair_before. simpl. lia.
Qed.

Lemma omap_lookup_seq {A B} (h : A → option B) (pre l : list A) :
  omap (λ j, (pre ++ l) !! j ≫= h) (seq (length pre) (length l)) = omap h l.
Proof.
  revert pre. induction l as [|x l IH]; intros pre; [done|].
  specialize (IH (pre ++ [x])). rewrite <- app_assoc, length_app in IH. simpl in IH.
  rewrite Nat.add_1_r in IH.
  simpl length. rewrite <- cons_seq. csimpl.
  rewrite list_lookup_middle by done. csimpl. by rewrite IH.
Qed.

Lemma omap_flagged db drug (others : list string) :
  omap (λ other, if decide (listed db drug other)
                 then Some (interaction_statement drug other) else None) others
  = interaction_statement drug <$> filter (listed db drug) others.
Proof.
  induction others as [|other others IH]; [done|].
  csimpl. rewrite filter_cons. case_decide; csimpl; by rewrite IH.
Qed.

Lemma statements_of_index_pairs db drugs :
  statements_of db drugs =
    omap (flagged_statement db drugs) (index_pairs (length drugs)).
Proof.
  induction drugs as [|drug rest IH]; [done|].
  simpl statements_of. simpl length. rewrite index_pairs_S, omap_app. f_equal.
  - rewrite <- omap_flagged, <- fmap_S_seq, <- list_fmap_compose, omap_fmap_compose.
    rewrite <- (omap_lookup_seq _ [] rest). simpl.
    apply list_omap_ext, Forall2_same_length_lookup_2; [done|].
    intros j x y Hx Hy. assert (x = y) as -> by congruence.
    unfold flagged_statement. simpl. by destruct (rest !! y).
  - rewrite IH, omap_fmap_compose. apply list_omap_ext, Forall2_same_length_lookup_2; [done|].
    intros j [a b] y Hx Hy. by assert ((a, b) = y) as <- by congruence.
Qed.

Lemma statements_of_elem db l1 a l2 b :
  b ∈ l2 → listed db a b →
  interaction_statement a b ∈ statements_of db (l1 ++ a :: l2).
Proof.
  intros Hb Hl. induction l1 as [|x l1 IH]; simpl; rewrite elem_of_app.
  - left. apply list_elem_of_fmap. exists b. split; [done|].
    by apply list_elem_of_filter.
  - by right.
Qed.

(** C2: for every list of drugs and every table, [check_interactions]
    returns, in the order in which the pairs of positions [i < j] are
    enumerated, the statement ["<first> interacts with <second>"] (the drug
    at [i], the text [" interacts with "], the drug at [j]) of exactly those
    pairs whose second drug is in the ["interacts_with"] list of the record
    of the first, and nothing else; the list of the second drug is not
    consulted, so that a pair of two drugs is flagged or not by what the
    record of the earlier one lists.  On aspirin, paracetamol, ibuprofen and
    the table of the module the result is the one statement
    ["aspirin interacts with ibuprofen"]. *)
Theorem check_interactions_spec (g : Globals) (drugs : list string) :
  result_of (check_interactions drugs) g =
    omap (flagged_statement (g_DRUG_DATABASE g) drugs) (index_pairs (length drugs)) ∧
  (∀ i j, (i, j) ∈ index_pairs (length drugs) ↔ i < j < length drugs) ∧
  StronglySorted pair_before (index_pairs (length drugs)) ∧
  (∀ drug other,
     result_of (check_interactions [drug; other]) g =
       if decide (other ∈ from_option interacts_with [] (g_DRUG_DATABASE g !! drug))
       then [drug +:+ " interacts with " +:+ other] else []) ∧
  result_of (check_interactions ["aspirin"; "paracetamol"; "ibuprofen"]) startup
    = ["aspirin interacts with ibuprofen"].
Proof.
  split_and!.
  - unfold result_of. rewrite check_interactions_run. apply statements_of_index_pairs.
  - intros i j. apply elem_of_index_pairs.
  - apply index_pairs_sorted.
  - intros drug other. unfold result_of. rewrite check_interactions_run. simpl.
    rewrite filter_cons, filter_nil. unfold listed. by case_decide.
  - vm_compute. reflexivity.
Qed.

Lemma check_interactions_spec_witness :
  result_of (check_interactions ["ibuprofen"; "aspirin"]) startup
    = ["ibuprofen interacts with aspirin"] ∧
  result_of (check_interactions ["paracetamol"; "aspirin"]) startup = [] ∧
  result_of (check_interactions ["ibuprofen"; "zinc"; "aspirin"]) startup
    = omap (flagged_statement DRUG_DATABASE ["ibuprofen"; "zinc"; "aspirin"])
           [(0, 1); (0, 2); (1, 2)].
Proof.
  split; [|split].
  - destruct (check_interactions_spec startup []) as (_ & _ & _ & Hpair & _).
    exact (Hpair "ibuprofen" "aspirin").
  - destruct (check_interactions_spec startup []) as (_ & _ & _ & Hpair & _).
    exact (Hpair "paracetamol" "aspirin").
  - destruct (check_interactions_spec startup ["ibuprofen"; "zinc"; "aspirin"])
      as (Hall & _).
    exact Hall.
Defined.

(** A table that lists an interaction in one direction only: the pair is
    flagged when the listing drug comes first, and not in the other order. *)
Example check_interactions_one_direction :
  let g := {| g_DRUG_DATABASE :=
                {[ "warfarin" := {| interacts_with := ["aspirin"]; min_age := 18;
                                    dosage := "5mg" |};
                   "aspirin" := {| interacts_with := []; min_age := 16;
                                   dosage := "100mg" |} ]};
              g_ALTERNATIVES := ∅ |} in
  result_of (check_interactions ["warfarin"; "aspirin"]) g
    = ["warfarin interacts with aspirin"] ∧
  result_of (check_interactions ["aspirin"; "warfarin"]) g = [].
Proof. split; vm_compute; reflexivity. Qed.

(** C3 does not hold in every enumeration order: aspirin is in the
    ["interacts_with"] list of ibuprofen, and on the collection enumerated as
    aspirin, ibuprofen the result does not contain
    ["ibuprofen interacts with aspirin"]. *)
Lemma check_interactions_every_order_counterexample :
  ¬ (∀ (d1 d2 : string) (info : DrugRecord) (drugs : list string),
       DRUG_DATABASE !! d1 = Some info → d2 ∈ interacts_with info →
       drugs ≡ₚ [d1; d2] →
       interaction_statement d1 d2 ∈ result_of (check_interactions drugs) startup).
Proof.
  intros Hclaim.
  specialize (Hclaim "ibuprofen" "aspirin"
    {| interacts_with := ["aspirin"]; min_age := 12; dosage := "200mg" |}
    ["aspirin"; "ibuprofen"]).
  assert (interaction_statement "ibuprofen" "aspirin"
            ∈ result_of (check_interactions ["aspirin"; "ibuprofen"]) startup) as Hin.
  { apply Hclaim; [reflexivity | by left | apply Permutation_swap]. }
  vm_compute in Hin. apply elem_of_cons in Hin as [Heq|Hin]; [discriminate|].
  by apply not_elem_of_nil in Hin.
Qed.

Lemma DRUG_DATABASE_interacts d1 d2 info :
  DRUG_DATABASE !! d1 = Some info → d2 ∈ interacts_with info →
  (d1 = "ibuprofen" ∧ d2 = "aspirin") ∨ (d1 = "aspirin" ∧ d2 = "ibuprofen").
Proof.
  unfold DRUG_DATABASE. simpl. intros Hinfo Hd2.
  apply lookup_insert_Some in Hinfo as [[<- <-]|[_ Hinfo]].
  { left. simpl in Hd2. apply list_elem_of_singleton in Hd2. done. }
  apply lookup_insert_Some in Hinfo as [[<- <-]|[_ Hinfo]].
  { right. simpl in Hd2. apply list_elem_of_singleton in Hd2. done. }
  apply lookup_insert_Some in Hinfo as [[<- <-]|[_ Hinfo]].
  { simpl in Hd2. by apply not_elem_of_nil in Hd2. }
  by rewrite lookup_empty in Hinfo.
Qed.

(** C3, amended: for all drugs [d1], [d2] with [d2] in the
    ["interacts_with"] list of [DRUG_DATABASE[d1]], [check_interactions] on
    the collection enumerated as [d1], [d2] returns the one statement
    ["d1 interacts with d2"]; enumerated as [d2], [d1] it returns the one
    statement ["d2 interacts with d1"], the table listing every interaction
    in both directions, and that result does not contain
    ["d1 interacts with d2"]. *)
Theorem check_interactions_pair (d1 d2 : string) (info : DrugRecord) :
  DRUG_DATABASE !! d1 = Some info → d2 ∈ interacts_with info →
  result_of (check_interactions [d1; d2]) startup = [interaction_statement d1 d2] ∧
  result_of (check_interactions [d2; d1]) startup = [interaction_statement d2 d1] ∧
  interaction_statement d1 d2 ∉ result_of (check_interactions [d2; d1]) startup.
Proof.
  intros Hinfo Hd2.
  destruct (DRUG_DATABASE_interacts d1 d2 info Hinfo Hd2) as [[-> ->]|[-> ->]].
  - split_and!; [vm_compute; reflexivity..|].
    vm_compute. intros Hin. apply elem_of_cons in Hin as [Heq|Hin]; [discriminate|].
    by apply not_elem_of_nil in Hin.
  - split_and!; [vm_compute; reflexivity..|].
    vm_compute. intros Hin. apply elem_of_cons in Hin as [Heq|Hin]; [discriminate|].
    by apply not_elem_of_nil in Hin.
Qed.

Lemma check_interactions_pair_witness :
  result_of (check_interactions ["aspirin"; "ibuprofen"]) startup
    = ["aspirin interacts with ibuprofen"] ∧
  result_of (check_interactions ["ibuprofen"; "aspirin"]) startup
    = ["ibuprofen interacts with aspirin"] ∧
  "aspirin interacts with ibuprofen"
    ∉ result_of (check_interactions ["ibuprofen"; "aspirin"]) startup.
Proof.
  apply (check_interactions_pair "aspirin" "ibuprofen"
           {| interacts_with := ["ibuprofen"]; min_age := 16; dosage := "100mg" |}).
  - reflexivity.
  - simpl. left.
Defined.

(** ** The [/analyze/] handler *)

Lemma elem_of_both_split {A} (l : list A) (a b : A) :
  a ∈ l → b ∈ l → a ≠ b →
  (∃ l1 l2, l = l1 ++ a :: l2 ∧ b ∈ l2) ∨ (∃ l1 l2, l = l1 ++ b :: l2 ∧ a ∈ l2).
Proof.
  intros (l1 & l2 & ->)%list_elem_of_split Hb Hab.
  apply elem_of_app in Hb as [Hb|Hb].
  - right. apply list_elem_of_split in Hb as (k1 & k2 & ->).
    exists k1, (k2 ++ a :: l2). split.
    + by rewrite <- app_assoc.
    + apply elem_of_app. right. by left.
  - left. exists l1, l2. split; [done|].
    apply elem_of_cons in Hb as [->|Hb]; [done|done].
Qed.

(** C6 does not hold: when paracetamol is extracted, the alternatives of the
    result have no entry for it. *)
Lemma alternatives_every_extracted_counterexample :
  ¬ (∀ (R : Runtime) (data : PrescriptionInput) (drug : string),
       let r := result_of (analyze_prescription data) startup in
       drug ∈ extracted_drugs r →
       ∃ v, alternatives r !! drug = Some v).
Proof.
  intros Hclaim.
  destruct (Hclaim (stub_runtime [MISC "Paracetamol"])
              {| text := "Paracetamol 500mg twice a day"; age := 30 |}
              "paracetamol") as [v Hv].
  - vm_compute. left.
  - vm_compute in Hv. discriminate.
Qed.

(** C6, amended: the alternatives of the result map every extracted drug
    that is a key of [ALTERNATIVES] to its alternative, and have no entry for
    an extracted drug that is not: at an extracted drug the mapping agrees
    with the table, and no value of it is a placeholder ["none found"]. *)
Theorem alternatives_of_extracted `{Runtime} (data : PrescriptionInput) (drug : string) :
  let r := result_of (analyze_prescription data) startup in
  drug ∈ extracted_drugs r →
  alternatives r !! drug = ALTERNATIVES !! drug ∧
  alternatives r !! drug ≠ Some "none found".
Proof.
  intros r Hin. subst r. unfold result_of in *.
  rewrite analyze_prescription_run in *. simpl in *.
  rewrite suggest_alternatives_lookup, decide_True by done.
  split; [done|]. change (g_ALTERNATIVES startup) with ALTERNATIVES.
  by intros Hv%ALTERNATIVES_values.
Qed.

Lemma alternatives_of_extracted_witness :
  let r := result_of (@analyze_prescription (stub_runtime [MISC "Paracetamol"; MISC "Aspirin"])
                        {| text := "Paracetamol or Aspirin"; age := 30 |}) startup in
  (alternatives r !! "aspirin" = ALTERNATIVES !! "aspirin" ∧
   alternatives r !! "aspirin" ≠ Some "none found") ∧
  (alternatives r !! "paracetamol" = ALTERNATIVES !! "paracetamol" ∧
   alternatives r !! "paracetamol" ≠ Some "none found").
Proof.
  split.
  - apply (@alternatives_of_extracted (stub_runtime [MISC "Paracetamol"; MISC "Aspirin"])
             {| text := "Paracetamol or Aspirin"; age := 30 |} "aspirin").
    vm_compute. right. left.
  - apply (@alternatives_of_extracted (stub_runtime [MISC "Paracetamol"; MISC "Aspirin"])
             {| text := "Paracetamol or Aspirin"; age := 30 |} "paracetamol").
    vm_compute. left.
Defined.

(** C8: when the entity extractor returns, for the text, a ["MISC"] span
    whose lowercased word is ["ibuprofen"] and one whose lowercased word is
    ["aspirin"], the result of the handler at age 20 has both drugs among the
    extracted drugs, at least one interaction statement (the one of the two
    drugs in the order in which they are enumerated), the dosages ["200mg"]
    for ibuprofen and ["100mg"] for aspirin, and the alternative
    ["paracetamol"] for both. *)
Theorem analyze_ibuprofen_aspirin `{Runtime} (text : string) :
  (∃ ent, ent ∈ nlp text ∧ entity_group ent = "MISC" ∧ lower (word ent) = "ibuprofen") →
  (∃ ent, ent ∈ nlp text ∧ entity_group ent = "MISC" ∧ lower (word ent) = "aspirin") →
  let r := result_of (analyze_prescription {| text := text; age := 20 |}) startup in
  "ibuprofen" ∈ extracted_drugs r ∧ "aspirin" ∈ extracted_drugs r ∧
  ("ibuprofen interacts with aspirin" ∈ interactions r ∨
   "aspirin interacts with ibuprofen" ∈ interactions r) ∧
  interactions r ≠ [] ∧
  dosage_info r !! "ibuprofen" = Some "200mg" ∧
  dosage_info r !! "aspirin" = Some "100mg" ∧
  alternatives r !! "ibuprofen" = Some "paracetamol" ∧
  alternatives r !! "aspirin" = Some "paracetamol".
Proof.
  intros (e1 & Hin1 & Hg1 & Hw1) (e2 & Hin2 & Hg2 & Hw2) r.
  subst r. unfold result_of. rewrite analyze_prescription_run. simpl.
  set (drugs := result_of (extract_drugs text) startup).
  assert ("ibuprofen" ∈ drugs) as Hi by (apply extract_drugs_elem; by exists e1).
  assert ("aspirin" ∈ drugs) as Ha by (apply extract_drugs_elem; by exists e2).
  assert ("ibuprofen interacts with aspirin" ∈ result_of (check_interactions drugs) startup ∨
          "aspirin interacts with ibuprofen" ∈ result_of (check_interactions drugs) startup)
    as Hint.
  { unfold result_of at 1 2. rewrite check_interactions_run. simpl.
    destruct (elem_of_both_split drugs "ibuprofen" "aspirin" Hi Ha)
      as [(l1 & l2 & -> & Hb)|(l1 & l2 & -> & Hb)]; [done|..].
    - left. apply (statements_of_elem DRUG_DATABASE l1 "ibuprofen" l2 "aspirin" Hb).
      vm_compute. left.
    - right. apply (statements_of_elem DRUG_DATABASE l1 "aspirin" l2 "ibuprofen" Hb).
      vm_compute. left. }
  split_and!; try done.
  - intros Hnil. rewrite Hnil in Hint. destruct Hint as [Hint|Hint]; by apply not_elem_of_nil in Hint.
  - by rewrite recommend_dosage_lookup, decide_True.
  - by rewrite recommend_dosage_lookup, decide_True.
  - by rewrite suggest_alternatives_lookup, decide_True.
  - by rewrite suggest_alternatives_lookup, decide_True.
Qed.

Lemma analyze_ibuprofen_aspirin_witness :
  let r := result_of (@analyze_prescription (stub_runtime [MISC "ibuprofen"; MISC "aspirin"])
                        {| text := "Take ibuprofen and aspirin daily"; age := 20 |}) startup in
  "ibuprofen" ∈ extracted_drugs r ∧ "aspirin" ∈ extracted_drugs r ∧
  ("ibuprofen interacts with aspirin" ∈ interactions r ∨
   "aspirin interacts with ibuprofen" ∈ interactions r) ∧
  interactions r ≠ [] ∧
  dosage_info r !! "ibuprofen" = Some "200mg" ∧
  dosage_info r !! "aspirin" = Some "100mg" ∧
  alternatives r !! "ibuprofen" = Some "paracetamol" ∧
  alternatives r !! "aspirin" = Some "paracetamol".
Proof.
  apply (@analyze_ibuprofen_aspirin (stub_runtime [MISC "ibuprofen"; MISC "aspirin"])
           "Take ibuprofen and aspirin daily").
  - exists (MISC "ibuprofen"). split; [simpl; left|]. split; reflexivity.
  - exists (MISC "aspirin"). split; [simpl; right; left|]. split; reflexivity.
Defined.

(** The handler on the stub runtime, with capitalised spans and a person. *)
Example analyze_prescription_run_example :
  let r := result_of (@analyze_prescription
                        (stub_runtime [MISC "Ibuprofen"; MISC "ibuprofen"; MISC "Aspirin";
                                       {| word := "Bob"; entity_group := "PER" |}])
                        {| text := "Bob takes Ibuprofen (ibuprofen) and Aspirin"; age := 14 |})
                     startup in
  extracted_drugs r = ["ibuprofen"; "aspirin"] ∧
  interactions r = ["ibuprofen interacts with aspirin"] ∧
  dosage_info r = {[ "ibuprofen" := "200mg"; "aspirin" := "Not recommended under age 16" ]} ∧
  alternatives r = {[ "ibuprofen" := "paracetamol"; "aspirin" := "paracetamol" ]}.
Proof. repeat split; vm_compute; reflexivity. Qed.

(** * Further properties of the code *)

(** ** More on [check_interactions] *)

Lemma statements_of_inv db drugs s :
  s ∈ statements_of db drugs →
  ∃ l1 a l2 b, drugs = l1 ++ a :: l2 ∧ b ∈ l2 ∧ listed db a b ∧
               s = interaction_statement a b.
Proof.
  induction drugs as [|d rest IH]; simpl; [by intros ?%not_elem_of_nil|].
  rewrite elem_of_app. intros [Hs|Hs].
  - apply list_elem_of_fmap in Hs as (b & -> & [Hl Hb]%list_elem_of_filter).
    by exists [], d, rest, b.
  - destruct (IH Hs) as (l1 & a & l2 & b & -> & Hb & Hl & ->).
    by exists (d :: l1), a, l2, b.
Qed.

Lemma listed_DRUG_DATABASE a b :
  listed DRUG_DATABASE a b ↔
  (a = "ibuprofen" ∧ b = "aspirin") ∨ (a = "aspirin" ∧ b = "ibuprofen").
Proof.
  split.
  - unfold listed. destruct (DRUG_DATABASE !! a) as [info|] eqn:Hinfo; simpl.
    + by apply DRUG_DATABASE_interacts.
    + by intros ?%not_elem_of_nil.
  - intros [[-> ->]|[-> ->]]; vm_compute; left.
Qed.

Lemma statements_of_DRUG_DATABASE_nonempty drugs :
  statements_of DRUG_DATABASE drugs ≠ [] ↔ "ibuprofen" ∈ drugs ∧ "aspirin" ∈ drugs.
Proof.
  split.
  - intros Hne. destruct (statements_of DRUG_DATABASE drugs) as [|s l] eqn:Hs; [done|].
    destruct (statements_of_inv DRUG_DATABASE drugs s) as (l1 & a & l2 & b & -> & Hb & Hl & _).
    { rewrite Hs. left. }
    apply listed_DRUG_DATABASE in Hl as [[-> ->]|[-> ->]];
      rewrite !elem_of_app, !elem_of_cons; auto.
  - intros [Hi Ha] Hnil.
    destruct (elem_of_both_split drugs "ibuprofen" "aspirin" Hi Ha)
      as [(l1 & l2 & -> & Hb)|(l1 & l2 & -> & Hb)]; [done|..].
    + apply (statements_of_elem DRUG_DATABASE l1 "ibuprofen" l2 "aspirin") in Hb;
        [|by apply listed_DRUG_DATABASE; left].
      rewrite Hnil in Hb. by apply not_elem_of_nil in Hb.
    + apply (statements_of_elem DRUG_DATABASE l1 "aspirin" l2 "ibuprofen") in Hb;
        [|by apply listed_DRUG_DATABASE; right].
      rewrite Hnil in Hb. by apply not_elem_of_nil in Hb.
Qed.

Lemma filter_eq_NoDup (P : string → Prop) `{∀ x, Decision (P x)} (a : string)
    (l : list string) :
  (∀ x, P x ↔ x = a) → NoDup l → filter P l = [] ∨ filter P l = [a].
Proof.
  intros HP Hnd. pose proof (NoDup_filter P l Hnd) as Hndf.
  assert (∀ x, x ∈ filter P l → x = a) as Hall.
  { intros x [Hx _]%list_elem_of_filter. by apply HP. }
  destruct (filter P l) as [|x [|y k]]; [by left|right|exfalso].
  - f_equal. apply Hall. left.
  - assert (x = a) as -> by (apply Hall; left).
    assert (y = a) as -> by (apply Hall; right; left).
    apply NoDup_cons in Hndf as [Hnin _]. apply Hnin. left.
Qed.

Lemma filter_none (P : string → Prop) `{∀ x, Decision (P x)} (l : list string) :
  (∀ x, x ∈ l → ¬ P x) → filter P l = [].
Proof.
  intros HP. induction l as [|x l IH]; [done|].
  rewrite filter_cons_False by (apply HP; left).
  apply IH. intros y Hy. apply HP. by right.
Qed.

Lemma statements_of_DRUG_DATABASE_NoDup drugs :
  NoDup drugs →
  statements_of DRUG_DATABASE drugs = [] ∨
  statements_of DRUG_DATABASE drugs = ["ibuprofen interacts with aspirin"] ∨
  statements_of DRUG_DATABASE drugs = ["aspirin interacts with ibuprofen"].
Proof.
  induction drugs as [|d rest IH]; [by left|].
  intros [Hnin Hnd]%NoDup_cons. simpl.
  destruct (decide (d = "ibuprofen")) as [->|Hni].
  { assert (statements_of DRUG_DATABASE rest = []) as ->.
    { destruct (statements_of DRUG_DATABASE rest) eqn:E; [done|].
      destruct (proj1 (statements_of_DRUG_DATABASE_nonempty rest)) as [? _]; [by rewrite E|done]. }
    rewrite app_nil_r.
    destruct (filter_eq_NoDup (listed DRUG_DATABASE "ibuprofen") "aspirin" rest) as [->| ->];
      [|done|by left|by right; left].
    intros x. rewrite listed_DRUG_DATABASE. split; [|by left].
    by intros [[_ ->]|[[=] _]]. }
  destruct (decide (d = "aspirin")) as [->|Hna].
  { assert (statements_of DRUG_DATABASE rest = []) as ->.
    { destruct (statements_of DRUG_DATABASE rest) eqn:E; [done|].
      destruct (proj1 (statements_of_DRUG_DATABASE_nonempty rest)) as [_ ?]; [by rewrite E|done]. }
    rewrite app_nil_r.
    destruct (filter_eq_NoDup (listed DRUG_DATABASE "aspirin") "ibuprofen" rest) as [->| ->];
      [|done|by left|by right; right].
    intros x. rewrite listed_DRUG_DATABASE. split; [|by right].
    by intros [[[=] _]|[_ ->]]. }
  rewrite filter_none; [by apply IH|].
  intros x _. rewrite listed_DRUG_DATABASE. by intros [[? _]|[? _]].
Qed.

(** X1: with the table of the module, [check_interactions] reports something
    exactly when both ibuprofen and aspirin are in the list, in whatever
    positions and however often. *)
Theorem check_interactions_reports_iff (drugs : list string) :
  result_of (check_interactions drugs) startup ≠ [] ↔
  "ibuprofen" ∈ drugs ∧ "aspirin" ∈ drugs.
Proof.
  unfold result_of. rewrite check_interactions_run. simpl.
  apply statements_of_DRUG_DATABASE_nonempty.
Qed.

(** X2: on a list without duplicates, as [extract_drugs] returns it, the table of
    the module gives at most one statement: the pair ibuprofen, aspirin is
    reported once, in the order of the list, and never in both directions. *)
Theorem check_interactions_NoDup (drugs : list string) :
  NoDup drugs →
  result_of (check_interactions drugs) startup = [] ∨
  result_of (check_interactions drugs) startup = ["ibuprofen interacts with aspirin"] ∨
  result_of (check_interactions drugs) startup = ["aspirin interacts with ibuprofen"].
Proof.
  unfold result_of. rewrite check_interactions_run. simpl.
  apply statements_of_DRUG_DATABASE_NoDup.
Qed.

Lemma check_interactions_NoDup_witness :
  result_of (check_interactions ["paracetamol"; "aspirin"; "ibuprofen"]) startup = [] ∨
  result_of (check_interactions ["paracetamol"; "aspirin"; "ibuprofen"]) startup
    = ["ibuprofen interacts with aspirin"] ∨
  result_of (check_interactions ["paracetamol"; "aspirin"; "ibuprofen"]) startup
    = ["aspirin interacts with ibuprofen"].
Proof.
  apply (check_interactions_NoDup ["paracetamol"; "aspirin"; "ibuprofen"]).
  apply (bool_decide_unpack (NoDup ["paracetamol"; "aspirin"; "ibuprofen"])).
  vm_compute. exact I.
Defined.

(** A list that repeats a drug can be reported more than once for the same
    two drugs: duplicates are not merged by [check_interactions] itself. *)
Example check_interactions_duplicates :
  result_of (check_interactions ["ibuprofen"; "aspirin"; "aspirin"]) startup
    = ["ibuprofen interacts with aspirin"; "ibuprofen interacts with aspirin"].
Proof. vm_compute. reflexivity. Qed.

Lemma statements_of_length db drugs :
  2 * length (statements_of db drugs) ≤ length drugs * (length drugs - 1).
Proof.
  induction drugs as [|d rest IH]; [done|].
  simpl statements_of. rewrite length_app, length_fmap.
  pose proof (length_filter (listed db d) rest) as Hf.
  simpl length.
  generalize dependent (length (statements_of db rest)).
  generalize dependent (length (filter (listed db d) rest)).
  generalize (length rest). intros m f Hf k IH.
  destruct m as [|m]; simpl in *; nia.
Qed.

(** X3: for every table, a list of [n] drugs gives at most [n * (n - 1) / 2]
    statements, one per pair of positions; with fewer than two drugs there is
    nothing to report. *)
Theorem check_interactions_size (g : Globals) (drugs : list string) :
  2 * length (result_of (check_interactions drugs) g)
    ≤ length drugs * (length drugs - 1) ∧
  (length drugs ≤ 1 → result_of (check_interactions drugs) g = []).
Proof.
  unfold result_of. rewrite check_interactions_run. simpl.
  pose proof (statements_of_length (g_DRUG_DATABASE g) drugs) as Hlen.
  split; [done|]. intros Hle.
  destruct (statements_of (g_DRUG_DATABASE g) drugs); [done|].
  simpl in Hlen. destruct drugs as [|? [|? ?]]; simpl in *; lia.
Qed.

Lemma check_interactions_size_witness :
  result_of (check_interactions ["ibuprofen"]) startup = [].
Proof.
  apply (check_interactions_size startup ["ibuprofen"]). simpl. lia.
Defined.

(** X4: for every table, drugs whose record is missing or lists no interaction
    produce no statement: a list made of such drugs only is reported clean,
    with no error for the unknown names. *)
Theorem check_interactions_unlisted (g : Globals) (drugs : list string) :
  (∀ drug, drug ∈ drugs →
     from_option interacts_with [] (g_DRUG_DATABASE g !! drug) = []) →
  result_of (check_interactions drugs) g = [].
Proof.
  intros Hnone. unfold result_of. rewrite check_interactions_run. simpl.
  destruct (statements_of (g_DRUG_DATABASE g) drugs) as [|s l] eqn:Hs; [done|].
  destruct (statements_of_inv (g_DRUG_DATABASE g) drugs s)
    as (l1 & a & l2 & b & -> & Hb & Hl & _); [rewrite Hs; left|].
  unfold listed in Hl. rewrite Hnone in Hl; [by apply not_elem_of_nil in Hl|].
  apply elem_of_app. right. left.
Qed.

Lemma check_interactions_unlisted_witness :
  result_of (check_interactions ["paracetamol"; "zinc"; "paracetamol"]) startup = [].
Proof.
  apply (check_interactions_unlisted startup ["paracetamol"; "zinc"; "paracetamol"]).
  intros drug Hin.
  apply elem_of_cons in Hin as [->|Hin]; [reflexivity|].
  apply elem_of_cons in Hin as [->|Hin]; [reflexivity|].
  apply elem_of_cons in Hin as [->|Hin]; [reflexivity|].
  by apply not_elem_of_nil in Hin.
Defined.

(** ** More on [recommend_dosage] and [suggest_alternatives] *)

Lemma recommend_dosage_ext g drugs1 drugs2 age :
  (∀ drug, drug ∈ drugs1 ↔ drug ∈ drugs2) →
  result_of (recommend_dosage drugs1 age) g = result_of (recommend_dosage drugs2 age) g.
Proof.
  intros Hsame. apply map_eq. intros d. rewrite !recommend_dosage_lookup.
  destruct (decide (d ∈ drugs1)) as [Hin|Hin], (decide (d ∈ drugs2)) as [Hin'|Hin'];
    try done; by destruct (Hsame d) as [? ?]; tauto.
Qed.

Lemma suggest_alternatives_ext g drugs1 drugs2 :
  (∀ drug, drug ∈ drugs1 ↔ drug ∈ drugs2) →
  result_of (suggest_alternatives drugs1) g = result_of (suggest_alternatives drugs2) g.
Proof.
  intros Hsame. apply map_eq. intros d. rewrite !suggest_alternatives_lookup.
  destruct (decide (d ∈ drugs1)) as [Hin|Hin], (decide (d ∈ drugs2)) as [Hin'|Hin'];
    try done; by destruct (Hsame d) as [? ?]; tauto.
Qed.

(** X5: for every table, the two mappings depend on the drugs given and not on
    their order or repetition: two lists with the same elements give the
    same dosage mapping and the same alternatives. *)
Theorem mappings_same_elements (g : Globals) (drugs1 drugs2 : list string) (age : Z) :
  (∀ drug, drug ∈ drugs1 ↔ drug ∈ drugs2) →
  result_of (recommend_dosage drugs1 age) g = result_of (recommend_dosage drugs2 age) g ∧
  result_of (suggest_alternatives drugs1) g = result_of (suggest_alternatives drugs2) g.
Proof.
  intros Hsame. split.
  - by apply recommend_dosage_ext.
  - by apply suggest_alternatives_ext.
Qed.

Lemma mappings_same_elements_witness :
  result_of (recommend_dosage ["aspirin"; "ibuprofen"; "aspirin"] 14) startup
    = result_of (recommend_dosage ["ibuprofen"; "aspirin"] 14) startup ∧
  result_of (suggest_alternatives ["aspirin"; "ibuprofen"; "aspirin"]) startup
    = result_of (suggest_alternatives ["ibuprofen"; "aspirin"]) startup.
Proof.
  apply (mappings_same_elements startup
           ["aspirin"; "ibuprofen"; "aspirin"] ["ibuprofen"; "aspirin"] 14).
  intros drug. rewrite !elem_of_cons. tauto.
Defined.

(** X6: for every table, the keys of the mapping are the same at all ages,
    and a drug that is recommended at some age keeps the same entry at every
    greater age: age changes what is said about a drug, never which drugs
    are answered. *)
Theorem recommend_dosage_age (g : Globals) (drugs : list string) (age age' : Z)
    (drug : string) :
  dom (result_of (recommend_dosage drugs age') g)
    = dom (result_of (recommend_dosage drugs age) g) ∧
  (∀ info, g_DRUG_DATABASE g !! drug = Some info →
     (min_age info ≤ age)%Z → (age ≤ age')%Z →
     result_of (recommend_dosage drugs age') g !! drug
       = result_of (recommend_dosage drugs age) g !! drug).
Proof.
  split.
  - apply set_eq. intros d. rewrite !elem_of_dom, !recommend_dosage_lookup.
    case_decide; [|done]. by rewrite !fmap_is_Some.
  - intros info Hinfo Hmin Hle.
    rewrite !recommend_dosage_lookup, Hinfo. case_decide; [|done]. simpl.
    unfold dosage_entry. by rewrite !(proj2 (Z.geb_le _ _)) by lia.
Qed.

Lemma recommend_dosage_age_witness :
  dom (result_of (recommend_dosage ["aspirin"; "ibuprofen"; "zinc"] 40) startup)
    = dom (result_of (recommend_dosage ["aspirin"; "ibuprofen"; "zinc"] (-2)) startup) ∧
  result_of (recommend_dosage ["aspirin"; "ibuprofen"; "zinc"] 40) startup !! "ibuprofen"
    = result_of (recommend_dosage ["aspirin"; "ibuprofen"; "zinc"] 12) startup !! "ibuprofen".
Proof.
  split.
  - destruct (recommend_dosage_age startup ["aspirin"; "ibuprofen"; "zinc"] (-2) 40 "zinc")
      as [Hdom _].
    exact Hdom.
  - destruct (recommend_dosage_age startup ["aspirin"; "ibuprofen"; "zinc"] 12 40 "ibuprofen")
      as [_ Hkeep].
    apply (Hkeep {| interacts_with := ["aspirin"]; min_age := 12; dosage := "200mg" |}).
    + reflexivity.
    + simpl. lia.
    + lia.
Defined.

Lemma DRUG_DATABASE_min_age drug info :
  DRUG_DATABASE !! drug = Some info → (1 ≤ min_age info ≤ 16)%Z.
Proof.
  unfold DRUG_DATABASE. simpl. intros Hinfo.
  apply lookup_insert_Some in Hinfo as [[_ <-]|[_ Hinfo]]; [simpl; lia|].
  apply lookup_insert_Some in Hinfo as [[_ <-]|[_ Hinfo]]; [simpl; lia|].
  apply lookup_insert_Some in Hinfo as [[_ <-]|[_ Hinfo]]; [simpl; lia|].
  by rewrite lookup_empty in Hinfo.
Qed.

(** X7: with the table of the module: from age 16 on, every entry is the dosage
    of the table and none is a restriction; below age 1, negative ages
    included, every entry is the restriction message of its drug. *)
Theorem recommend_dosage_extremes (drugs : list string) (age : Z) (drug v : string) :
  result_of (recommend_dosage drugs age) startup !! drug = Some v →
  ∃ info, DRUG_DATABASE !! drug = Some info ∧
    ((16 ≤ age)%Z → v = dosage info) ∧
    ((age < 1)%Z → v = restriction_message (min_age info)).
Proof.
  rewrite recommend_dosage_lookup. case_decide; [|done].
  intros (info & Hinfo & ->)%fmap_Some. exists info. split; [done|].
  pose proof (DRUG_DATABASE_min_age drug info Hinfo) as Hmin.
  unfold dosage_entry. split; intros Hage.
  - by rewrite (proj2 (Z.geb_le _ _)) by lia.
  - destruct (age >=? min_age info)%Z eqn:E; [apply Z.geb_le in E; lia|done].
Qed.

Lemma recommend_dosage_extremes_witness :
  ∃ info, DRUG_DATABASE !! "paracetamol" = Some info ∧
    ((16 ≤ -3)%Z → "Not recommended under age 1" = dosage info) ∧
    ((-3 < 1)%Z → "Not recommended under age 1" = restriction_message (min_age info)).
Proof.
  apply (recommend_dosage_extremes ["paracetamol"; "zinc"] (-3) "paracetamol").
  vm_compute. reflexivity.
Defined.

(** X8: with the table of the module, an entry tells by itself whether it is a
    dosage or a restriction: it is the restriction message exactly when the
    age is below the minimum age of the drug, and the dosage of the table
    exactly when it is not. *)
Theorem recommend_dosage_unambiguous (drugs : list string) (age : Z)
    (drug v : string) (info : DrugRecord) :
  result_of (recommend_dosage drugs age) startup !! drug = Some v →
  DRUG_DATABASE !! drug = Some info →
  (v = restriction_message (min_age info) ↔ (age < min_age info)%Z) ∧
  (v = dosage info ↔ (min_age info ≤ age)%Z).
Proof.
  rewrite recommend_dosage_lookup. case_decide; [|done].
  change (g_DRUG_DATABASE startup) with DRUG_DATABASE.
  intros Hv Hinfo. rewrite Hinfo in Hv. simpl in Hv. injection Hv as <-.
  assert (dosage info ≠ restriction_message (min_age info)) as Hne.
  { unfold DRUG_DATABASE in Hinfo. simpl in Hinfo.
    apply lookup_insert_Some in Hinfo as [[_ <-]|[_ Hinfo]]; [done|].
    apply lookup_insert_Some in Hinfo as [[_ <-]|[_ Hinfo]]; [done|].
    apply lookup_insert_Some in Hinfo as [[_ <-]|[_ Hinfo]]; [done|].
    by rewrite lookup_empty in Hinfo. }
  unfold dosage_entry. destruct (age >=? min_age info)%Z eqn:E.
  - apply Z.geb_le in E.
    split; [split; [intros Heq; by destruct Hne | lia] | split; [lia | done]].
  - assert (age < min_age info)%Z as Hlt.
    { destruct (Z.geb_spec age (min_age info)); [done|lia]. }
    split; [split; done | split; [intros Heq; by destruct Hne | lia]].
Qed.

Lemma recommend_dosage_unambiguous_witness :
  ("Not recommended under age 16" = restriction_message 16 ↔ (15 < 16)%Z) ∧
  ("Not recommended under age 16" = "100mg" ↔ (16 ≤ 15)%Z).
Proof.
  apply (recommend_dosage_unambiguous ["aspirin"] 15 "aspirin" "Not recommended under age 16"
           {| interacts_with := ["ibuprofen"]; min_age := 16; dosage := "100mg" |}).
  - vm_compute. reflexivity.
  - reflexivity.
Defined.

(** X9: The restriction message determines the minimum age it was made from. *)
Theorem restriction_message_inj (m1 m2 : Z) :
  restriction_message m1 = restriction_message m2 → m1 = m2.
Proof.
  unfold restriction_message. simpl. intros Heq.
  injection Heq as Heq. change (pretty m1 = pretty m2) in Heq.
  by apply (inj (pretty : Z → string)) in Heq.
Qed.

Lemma restriction_message_inj_witness : 12%Z = 12%Z.
Proof. apply (restriction_message_inj 12%Z 12%Z). reflexivity. Defined.

(** X10: with the tables of the module, every drug that is given an alternative
    is also given a dosage entry, and the alternative is itself a drug of
    the table whose record lists no interaction. *)
Theorem alternative_is_known (drugs : list string) (age : Z) (drug alt : string) :
  result_of (suggest_alternatives drugs) startup !! drug = Some alt →
  is_Some (result_of (recommend_dosage drugs age) startup !! drug) ∧
  ∃ info, DRUG_DATABASE !! alt = Some info ∧ interacts_with info = [].
Proof.
  rewrite suggest_alternatives_lookup, recommend_dosage_lookup.
  case_decide; [|done]. change (g_ALTERNATIVES startup) with ALTERNATIVES.
  change (g_DRUG_DATABASE startup) with DRUG_DATABASE. intros Halt.
  pose proof (ALTERNATIVES_values drug alt Halt) as ->. split.
  - unfold ALTERNATIVES in Halt. simpl in Halt.
    apply lookup_insert_Some in Halt as [[<- _]|[_ Halt]]; [by eexists|].
    apply lookup_insert_Some in Halt as [[<- _]|[_ Halt]]; [by eexists|].
    by rewrite lookup_empty in Halt.
  - by eexists.
Qed.

Lemma alternative_is_known_witness :
  is_Some (result_of (recommend_dosage ["aspirin"; "zinc"] 9) startup !! "aspirin") ∧
  ∃ info, DRUG_DATABASE !! "paracetamol" = Some info ∧ interacts_with info = [].
Proof.
  apply (alternative_is_known ["aspirin"; "zinc"] 9 "aspirin" "paracetamol").
  vm_compute. reflexivity.
Defined.

(** ** More on [extract_drugs] and the handler *)

Lemma analyze_prescription_fields `{Runtime} data g :
  result_of (analyze_prescription data) g =
    {| extracted_drugs := result_of (extract_drugs (text data)) g;
       interactions :=
         statements_of (g_DRUG_DATABASE g) (result_of (extract_drugs (text data)) g);
       dosage_info :=
         result_of (recommend_dosage (result_of (extract_drugs (text data)) g) (age data)) g;
       alternatives :=
         result_of (suggest_alternatives (result_of (extract_drugs (text data)) g)) g |}.
Proof.
  unfold result_of at 1. rewrite analyze_prescription_run. cbn [fst].
  f_equal. unfold result_of at 1. by rewrite check_interactions_run.
Qed.

Ltac analyze_fields :=
  rewrite !analyze_prescription_fields;
  cbn [extracted_drugs interactions dosage_info alternatives].

Lemma extract_drugs_NoDup `{Runtime} text g :
  NoDup (result_of (extract_drugs text) g).
Proof. apply list_of_set_NoDup. Qed.

(** X11: [extract_drugs] returns at most as many drugs as the extractor returned
    ["MISC"] spans, hence at most as many as it returned spans. *)
Theorem extract_drugs_length `{Runtime} (text : string) (g : Globals) :
  length (result_of (extract_drugs text) g)
    ≤ length (filter (λ ent, entity_group ent = "MISC") (nlp text)) ∧
  length (result_of (extract_drugs text) g) ≤ length (nlp text).
Proof.
  assert (length (result_of (extract_drugs text) g)
            ≤ length (filter (λ ent, entity_group ent = "MISC") (nlp text))) as Hle.
  { rewrite <- (length_fmap (λ ent, lower (word ent))).
    apply submseteq_length, NoDup_submseteq; [apply extract_drugs_NoDup|].
    intros w Hw. exact (proj1 (list_of_set_elem _ w) Hw). }
  split; [done|]. etrans; [exact Hle|]. apply length_filter.
Qed.

Lemma extract_drugs_none `{Runtime} text g :
  (∀ ent, ent ∈ nlp text → entity_group ent ≠ "MISC") →
  result_of (extract_drugs text) g = [].
Proof.
  intros Hnone. destruct (result_of (extract_drugs text) g) as [|w r] eqn:Hr; [done|].
  destruct (proj1 (extract_drugs_elem text g w)) as (ent & Hin & Hg & _).
  { rewrite Hr. left. }
  by destruct (Hnone ent Hin).
Qed.

(** X12: when the extractor returns no ["MISC"] span for the text, the handler
    answers with four empty fields, whatever the age and the tables: a text
    without drugs is no error. *)
Theorem analyze_prescription_nothing_extracted `{Runtime} (data : PrescriptionInput)
    (g : Globals) :
  (∀ ent, ent ∈ nlp (text data) → entity_group ent ≠ "MISC") →
  result_of (analyze_prescription data) g =
    {| extracted_drugs := []; interactions := []; dosage_info := ∅; alternatives := ∅ |}.
Proof.
  intros Hnone. rewrite analyze_prescription_fields.
  by rewrite (extract_drugs_none _ _ Hnone).
Qed.

Lemma analyze_prescription_nothing_extracted_witness :
  result_of (@analyze_prescription
               (stub_runtime [ {| word := "Alice"; entity_group := "PER" |} ])
               {| text := "Alice is fine"; age := 30 |}) startup =
    {| extracted_drugs := []; interactions := []; dosage_info := ∅; alternatives := ∅ |}.
Proof.
  apply (@analyze_prescription_nothing_extracted
           (stub_runtime [ {| word := "Alice"; entity_group := "PER" |} ])
           {| text := "Alice is fine"; age := 30 |} startup).
  intros ent Hin. simpl in Hin.
  apply elem_of_cons in Hin as [->|Hin]; [discriminate|].
  by apply not_elem_of_nil in Hin.
Defined.

(** X13: for every table, all that the handler answers is about the extracted
    drugs: the keys of the dosage mapping and of the alternatives are
    extracted drugs, and every interaction statement names two different
    extracted drugs, the first of which lists the second. *)
Theorem analyze_prescription_about_extracted `{Runtime} (data : PrescriptionInput)
    (g : Globals) :
  let r := result_of (analyze_prescription data) g in
  dom (dosage_info r) ⊆ list_to_set (extracted_drugs r) ∧
  dom (alternatives r) ⊆ list_to_set (extracted_drugs r) ∧
  Forall (λ s, ∃ a b, a ∈ extracted_drugs r ∧ b ∈ extracted_drugs r ∧ a ≠ b ∧
                      listed (g_DRUG_DATABASE g) a b ∧
                      s = a +:+ " interacts with " +:+ b) (interactions r).
Proof.
  intros r. subst r. analyze_fields.
  set (drugs := result_of (extract_drugs (text data)) g).
  split_and!.
  - intros d [v Hv]%elem_of_dom. apply elem_of_list_to_set.
    rewrite recommend_dosage_lookup in Hv. by case_decide.
  - intros d [v Hv]%elem_of_dom. apply elem_of_list_to_set.
    rewrite suggest_alternatives_lookup in Hv. by case_decide.
  - apply Forall_forall. intros s Hs.
    apply statements_of_inv in Hs as (l1 & a & l2 & b & Hd & Hb & Hl & ->).
    pose proof (extract_drugs_NoDup (text data) g) as Hnd. fold drugs in Hnd.
    rewrite Hd in *. exists a, b. split_and!; try done.
    + apply elem_of_app. right. left.
    + apply elem_of_app. right. by right.
    + apply NoDup_app in Hnd as (_ & _ & [Hnin _]%NoDup_cons). by intros ->.
Qed.

Lemma analyze_prescription_about_extracted_witness :
  Forall (λ s, ∃ a b, a ∈ ["ibuprofen"; "aspirin"; "zinc"] ∧
                      b ∈ ["ibuprofen"; "aspirin"; "zinc"] ∧ a ≠ b ∧
                      listed DRUG_DATABASE a b ∧
                      s = a +:+ " interacts with " +:+ b)
    ["ibuprofen interacts with aspirin"].
Proof.
  destruct (@analyze_prescription_about_extracted
              (stub_runtime [MISC "Ibuprofen"; MISC "Aspirin"; MISC "Zinc"])
              {| text := "Ibuprofen, Aspirin and Zinc"; age := 30 |} startup)
    as (_ & _ & Hstatements).
  exact Hstatements.
Defined.

(** X14: The handler keeps nothing from one request to the next: the answer to a
    request that follows another one is the answer it gets alone. *)
Theorem analyze_prescription_stateless `{Runtime} (first second : PrescriptionInput)
    (g : Globals) :
  result_of (analyze_prescription first ≫= λ _, analyze_prescription second) g
    = result_of (analyze_prescription second) g.
Proof.
  unfold result_of, mbind, Prog_bind. by rewrite analyze_prescription_run.
Qed.




(** The two runtimes do differ on that request: in the order of the drugs and
    in the direction of the statement. *)
Example set_order_shows_in_two_fields :
  let entities := [MISC "Ibuprofen"; MISC "Aspirin"; MISC "Paracetamol"] in
  let data := {| text := "Ibuprofen, Aspirin, Paracetamol"; age := 14 |} in
  let r1 := result_of (@analyze_prescription (stub_runtime entities) data) startup in
  let r2 := result_of (@analyze_prescription (stub_runtime_rev entities) data) startup in
  extracted_drugs r1 = ["ibuprofen"; "aspirin"; "paracetamol"] ∧
  extracted_drugs r2 = ["paracetamol"; "aspirin"; "ibuprofen"] ∧
  interactions r1 = ["ibuprofen interacts with aspirin"] ∧
  interactions r2 = ["aspirin interacts with ibuprofen"].
Proof. repeat split; vm_compute; reflexivity. Qed.

(** ** The front end *)

Lemma run_streamlit_clicked post session :
  button_clicked session = true →
  run_streamlit post session =
    [ st_title "💊 AI Prescription Verifier";
      st_markdown "*Enter medical prescription text:*";
      st_text_area "Prescription Text" 150;
      st_slider "Select Patient Age" 0 100 25;
      st_button "Analyze Prescription";
      st_spinner "Analyzing...";
      requests_post analyze_url
        {| text := typed_text session; age := slider_age session |} ] ++
    let response :=
      post analyze_url {| text := typed_text session; age := slider_age session |} in
    if (status_code response =? 200)%Z then
      [ st_subheader "📄 Extracted Drug Names";
        st_write_list (extracted_drugs (json response));
        st_subheader "⚠ Drug Interactions";
        write_interactions (interactions (json response));
        st_subheader "📋 Dosage Recommendations";
        st_write_dict (dosage_info (json response));
        st_subheader "✅ Alternative Suggestions";
        st_write_dict (alternatives (json response)) ]
    else [ st_error "Backend Error" ].
Proof. intros Hc. unfold run_streamlit. by rewrite Hc. Qed.

Ltac elem_of_calls H :=
  repeat (apply elem_of_cons in H as [H|H]; [try discriminate H|]);
  try (by apply not_elem_of_nil in H).

(** X16: a run of the script posts a request exactly when the button was clicked,
    to [http://localhost:8000/analyze/], with the text typed and the age of
    the slider; without a click nothing is requested and nothing is
    written. *)
Theorem run_streamlit_request (post : string → PrescriptionInput → Response)
    (session : Session) (url : string) (body : PrescriptionInput) :
  (requests_post url body ∈ run_streamlit post session ↔
     button_clicked session = true ∧ url = "http://localhost:8000/analyze/" ∧
     body = {| text := typed_text session; age := slider_age session |}) ∧
  (button_clicked session = false →
     Forall (λ c, match c with
                  | requests_post _ _ | st_subheader _ | st_write_list _
                  | st_write_str _ | st_write_dict _ | st_error _ => False
                  | _ => True
                  end) (run_streamlit post session)).
Proof.
  split.
  - destruct (button_clicked session) eqn:Hc.
    + rewrite run_streamlit_clicked by done. split.
      * intros Hin. apply elem_of_app in Hin as [Hin|Hin].
        -- elem_of_calls Hin. by injection Hin as -> ->.
        -- simpl in Hin. destruct (status_code _ =? 200)%Z.
           ++ elem_of_calls Hin.
              destruct (interactions _); discriminate Hin.
           ++ elem_of_calls Hin.
      * intros (_ & -> & ->). apply elem_of_app. left.
        do 6 right. left.
    + unfold run_streamlit. rewrite Hc. split; [|by intros [? _]].
      intros Hin. elem_of_calls Hin.
  - intros Hc. unfold run_streamlit. rewrite Hc. by repeat constructor.
Qed.

Lemma run_streamlit_request_witness :
  requests_post "http://localhost:8000/analyze/" {| text := "Take aspirin"; age := 25 |}
    ∈ run_streamlit (λ _ _, {| status_code := 503;
                               json := {| extracted_drugs := []; interactions := [];
                                          dosage_info := ∅; alternatives := ∅ |} |})
        {| typed_text := "Take aspirin"; slider_age := 25; button_clicked := true |} ∧
  Forall (λ c, match c with
               | requests_post _ _ | st_subheader _ | st_write_list _
               | st_write_str _ | st_write_dict _ | st_error _ => False
               | _ => True
               end)
    (run_streamlit (λ _ _, {| status_code := 200;
                              json := {| extracted_drugs := []; interactions := [];
                                         dosage_info := ∅; alternatives := ∅ |} |})
       {| typed_text := "Take aspirin"; slider_age := 25; button_clicked := false |}).
Proof.
  split.
  - apply (run_streamlit_request _
             {| typed_text := "Take aspirin"; slider_age := 25; button_clicked := true |}
             "http://localhost:8000/analyze/" {| text := "Take aspirin"; age := 25 |}).
    split; [reflexivity|]. split; reflexivity.
  - apply (run_streamlit_request _
             {| typed_text := "Take aspirin"; slider_age := 25; button_clicked := false |}
             "" {| text := ""; age := 0 |}).
    reflexivity.
Defined.

(** X17: when the status of the response is not 200, the run ends with the one
    notice ["Backend Error"] and shows nothing of the response: two backends
    that both fail are displayed alike, whatever their status and body. *)
Theorem run_streamlit_failure (post post' : string → PrescriptionInput → Response)
    (session : Session) :
  let body := {| text := typed_text session; age := slider_age session |} in
  button_clicked session = true →
  status_code (post analyze_url body) ≠ 200%Z →
  status_code (post' analyze_url body) ≠ 200%Z →
  last (run_streamlit post session) = Some (st_error "Backend Error") ∧
  run_streamlit post session = run_streamlit post' session ∧
  Forall (λ c, match c with
               | st_subheader _ | st_write_list _ | st_write_str _
               | st_write_dict _ => False
               | _ => True
               end) (run_streamlit post session).
Proof.
  intros body Hc Hs Hs'. subst body. rewrite !run_streamlit_clicked by done.
  cbn zeta. apply Z.eqb_neq in Hs, Hs'. rewrite Hs, Hs'. split_and!; [done..|].
  simpl. by repeat constructor.
Qed.

Lemma run_streamlit_failure_witness :
  let session := {| typed_text := "Take aspirin"; slider_age := 25; button_clicked := true |} in
  let empty := {| extracted_drugs := []; interactions := [];
                  dosage_info := ∅; alternatives := ∅ |} in
  let post := λ (_ : string) (_ : PrescriptionInput), {| status_code := 500; json := empty |} in
  let post' := λ (_ : string) (_ : PrescriptionInput),
    {| status_code := 422;
       json := {| extracted_drugs := ["aspirin"]; interactions := [];
                  dosage_info := ∅; alternatives := ∅ |} |} in
  last (run_streamlit post session) = Some (st_error "Backend Error") ∧
  run_streamlit post session = run_streamlit post' session ∧
  Forall (λ c, match c with
               | st_subheader _ | st_write_list _ | st_write_str _
               | st_write_dict _ => False
               | _ => True
               end) (run_streamlit post session).
Proof.
  intros session empty post post'.
  apply (run_streamlit_failure post post' session).
  - reflexivity.
  - simpl. lia.
  - simpl. lia.
Defined.

(** X18: The front end on top of the handler.  When the button is clicked and the
    backend answers the request with status 200 and the result of the
    handler, the run shows the extracted drugs, and under the interactions
    heading either the notice ["No harmful interactions found."], exactly
    when ibuprofen and aspirin are not both extracted, or else the one
    statement about the two. *)
Theorem run_streamlit_with_handler `{Runtime}
    (post : string → PrescriptionInput → Response) (session : Session) :
  let body := {| text := typed_text session; age := slider_age session |} in
  let drugs := result_of (extract_drugs (typed_text session)) startup in
  button_clicked session = true →
  post analyze_url body =
    {| status_code := 200; json := result_of (analyze_prescription body) startup |} →
  st_write_list drugs ∈ run_streamlit post session ∧
  (st_write_str "No harmful interactions found." ∈ run_streamlit post session ↔
     ¬ ("ibuprofen" ∈ drugs ∧ "aspirin" ∈ drugs)) ∧
  ("ibuprofen" ∈ drugs ∧ "aspirin" ∈ drugs →
     st_write_list ["ibuprofen interacts with aspirin"] ∈ run_streamlit post session ∨
     st_write_list ["aspirin interacts with ibuprofen"] ∈ run_streamlit post session).
Proof.
  intros body drugs Hc Hpost. subst body.
  rewrite run_streamlit_clicked by done. cbn zeta. rewrite Hpost.
  cbn [status_code json]. change (200 =? 200)%Z with true. cbn match.
  analyze_fields. cbn [text]. fold drugs.
  change (g_DRUG_DATABASE startup) with DRUG_DATABASE.
  pose proof (extract_drugs_NoDup (typed_text session) startup) as Hnd. fold drugs in Hnd.
  pose proof (statements_of_DRUG_DATABASE_nonempty drugs) as Hiff.
  split_and!.
  - apply elem_of_app. right. right. left.
  - destruct (statements_of_DRUG_DATABASE_NoDup drugs Hnd) as [E|[E|E]];
      rewrite E in *; cbn [write_interactions]; split.
    + intros _ Hboth. by apply Hiff in Hboth.
    + intros _. apply elem_of_app. right. do 3 right. left.
    + intros Hin Hboth. apply elem_of_app in Hin as [Hin|Hin]; elem_of_calls Hin.
    + intros Hnot. destruct Hnot. by apply Hiff.
    + intros Hin Hboth. apply elem_of_app in Hin as [Hin|Hin]; elem_of_calls Hin.
    + intros Hnot. destruct Hnot. by apply Hiff.
  - intros Hboth. apply Hiff in Hboth.
    destruct (statements_of_DRUG_DATABASE_NoDup drugs Hnd) as [E|[E|E]];
      rewrite E in *; [done|left|right]; cbn [write_interactions];
      apply elem_of_app; right; do 3 right; left.
Qed.

Lemma run_streamlit_with_handler_witness :
  let R := stub_runtime [MISC "Ibuprofen"; MISC "Aspirin"] in
  let session := {| typed_text := "Ibuprofen with Aspirin"; slider_age := 25;
                    button_clicked := true |} in
  let post := λ (_ : string) (body : PrescriptionInput),
    {| status_code := 200;
       json := result_of (@analyze_prescription R body) startup |} in
  let drugs := result_of (@extract_drugs R (typed_text session)) startup in
  st_write_list drugs ∈ run_streamlit post session ∧
  (st_write_str "No harmful interactions found." ∈ run_streamlit post session ↔
     ¬ ("ibuprofen" ∈ drugs ∧ "aspirin" ∈ drugs)) ∧
  ("ibuprofen" ∈ drugs ∧ "aspirin" ∈ drugs →
     st_write_list ["ibuprofen interacts with aspirin"] ∈ run_streamlit post session ∨
     st_write_list ["aspirin interacts with ibuprofen"] ∈ run_streamlit post session).
Proof.
  intros R session post drugs.
  apply (@run_streamlit_with_handler R post session).
  - reflexivity.
  - reflexivity.
Defined.

(** One run against the handler on the stub runtime. *)
Example run_streamlit_example :
  let R := stub_runtime [MISC "Paracetamol"] in
  let post := λ (_ : string) (body : PrescriptionInput),
    {| status_code := 200;
       json := result_of (@analyze_prescription R body) startup |} in
  run_streamlit post {| typed_text := "Paracetamol at night"; slider_age := 0;
                        button_clicked := true |} =
    [ st_title "💊 AI Prescription Verifier";
      st_markdown "*Enter medical prescription text:*";
      st_text_area "Prescription Text" 150;
      st_slider "Select Patient Age" 0 100 25;
      st_button "Analyze Prescription";
      st_spinner "Analyzing...";
      requests_post "http://localhost:8000/analyze/"
        {| text := "Paracetamol at night"; age := 0 |};
      st_subheader "📄 Extracted Drug Names";
      st_write_list ["paracetamol"];
      st_subheader "⚠ Drug Interactions";
      st_write_str "No harmful interactions found.";
      st_subheader "📋 Dosage Recommendations";
      st_write_dict {[ "paracetamol" := "Not recommended under age 1" ]};
      st_subheader "✅ Alternative Suggestions";
      st_write_dict ∅ ].
Proof. vm_compute. reflexivity. Qed.
